(** * slog-sentry: a slog.Handler that reports log records to Sentry

    Shallow embedding of [handler.go] (package [slogsentry]) and of the
    earlier revision of the same file that has no tag map, followed by the
    properties of [SentryHandler.Handle], [SentryHandler.WithAttrs] and
    [SlogError] that the specification states.

    Go values are modelled as follows.
    - [error] interface values: a tagged union of the dynamic types that
      occur, [nil] being [None] of [option error].
    - [map[string]any] / [map[string]string]: [gmap string string] (every
      value the handler stores is the result of [Value.String()]).
    - the closure variables mutated by [handleAttr]: a record threaded
      through the scan.
    - calls into the Sentry SDK and into the wrapped handler: a state monad
      over a [World] that holds the SDK's current hub and the log of calls. *)

From stdpp Require Import gmap strings list fin_maps pretty.

Open Scope string_scope.

(** ** Go errors *)

(** An [error] value, as far as this package can observe it: an error of
    another package is seen through its [Error()] text only; a [SlogError]
    is the struct declared in [handler.go], with fields [msg] and [err]. *)
#[warnings="-register-all"]
Inductive error : Type :=
| errorString (s : string)
| SlogError (msg : string) (err : option error).

(** [func (e SlogError) Error() string], together with the dynamic dispatch
    of [e.err.Error()]. *)
Fixpoint Error (e : error) : string :=
  match e with
  | errorString s => s
  | SlogError m w =>
      let msg := m in
      match w with
      | Some e' =>
          let msg := if (0 <? String.length msg)%nat then msg ++ ": " else msg in
          msg ++ Error e'
      | None => msg
      end
  end.


(** [fmt.Errorf] with a format that has no verb. *)
Definition fmt_Errorf (format : string) : error := errorString format.

(** ** The part of [log/slog] the handler uses *)

Definition slog_Level : Type := Z.

Definition slog_LevelDebug : slog_Level := (-4)%Z.
Definition slog_LevelInfo : slog_Level := 0%Z.
Definition slog_LevelWarn : slog_Level := 4%Z.
Definition slog_LevelError : slog_Level := 8%Z.

Definition slog_TimeKey : string := "time".
Definition slog_LevelKey : string := "level".
Definition slog_MessageKey : string := "msg".
Definition slog_SourceKey : string := "source".

(** The dynamic value behind an [any]: untyped [nil], a value whose type
    implements [error], or any other value, kept as [fmt.Sprint] prints it. *)
Inductive any : Type :=
| Nil
| IsError (e : error)
| Dyn (printed : string).

Inductive slog_Value : Type :=
| StringValue (s : string)
| BoolValue (b : bool)
| Int64Value (i : Z)
| AnyValue (a : any).

(** [Value.Any()]. *)
Definition Value_Any (v : slog_Value) : any :=
  match v with
  | StringValue s => Dyn s
  | BoolValue b => Dyn (if b then "true" else "false")
  | Int64Value i => Dyn (pretty i)
  | AnyValue a => a
  end.

(** [fmt.Sprint] of one operand. *)
Definition fmt_Sprint (a : any) : string :=
  match a with
  | Nil => "<nil>"
  | IsError e => Error e
  | Dyn s => s
  end.

(** [Value.String()]. *)
Definition Value_String (v : slog_Value) : string := fmt_Sprint (Value_Any v).

(** The type assertion [x.(error)] in its two-result form: the error and
    [true], or the zero value [nil] and [false]. *)
Definition assert_error (x : any) : option error * bool :=
  match x with
  | IsError e => (Some e, true)
  | _ => (None, false)
  end.

Record slog_Attr : Type := Attr { Key : string; Value : slog_Value }.

Record slog_Record : Type := NewRecord {
  Time : Z;
  Level : slog_Level;
  Message : string;
  PC : Z;
  Attrs : list slog_Attr
}.

(** ** The world outside the handler *)

(** A [*sentry.Hub], identified by its address. *)
Definition Hub : Type := positive.

(** A [context.Context], reduced to the hub stored in it, if any. *)
Record Context : Type := { ctxHub : option Hub }.

(** Calls made inside the callback handed to [hub.WithScope], in order:
    [scope.SetContext] and [scope.SetTags] on the callback's scope, and the
    package-level [sentry.CaptureException] and [sentry.CaptureMessage]. *)
Inductive ScopeCall : Type :=
| SetContext (key : string) (value : gmap string string)
| SetTags (tags : gmap string string)
| CaptureException (exception : error)
| CaptureMessage (message : string).

(** Calls that leave the handler. *)
Inductive Call : Type :=
| HubWithScope (hub : Hub) (body : list ScopeCall)
| SinkHandle (attrs : list slog_Attr) (groups : list string) (record : slog_Record).

(** [currentHub] is what [sentry.CurrentHub()] returns. The SDK sets its
    hub up when the package is loaded and does not take it away again, so in
    a run of the program it is [Some]; it is an option because [Handle]
    tests the result against [nil]. *)
Record World : Type := {
  currentHub : option Hub;
  calls : list Call
}.

Definition M (A : Type) : Type := World -> A * World.

Definition ret {A} (a : A) : M A := fun w => (a, w).

Definition bind {A B} (m : M A) (k : A -> M B) : M B :=
  fun w => let (a, w') := m w in k a w'.

Declare Scope go_scope.
Delimit Scope go_scope with go.
Notation "'let*' x := m 'in' k" := (bind m (fun x => k))
  (at level 10, x name, m at level 100, k at level 200) : go_scope.
Notation "m ;; k" := (bind m (fun _ => k))
  (at level 100, k at level 200, right associativity) : go_scope.

Definition emit (c : Call) : M unit :=
  fun w => (tt, {| currentHub := currentHub w; calls := calls w ++ [c] |}).

(** [sentry.GetHubFromContext]. *)
Definition sentry_GetHubFromContext (ctx : Context) : option Hub := ctxHub ctx.

(** [sentry.CurrentHub]. *)
Definition sentry_CurrentHub : M (option Hub) := fun w => (currentHub w, w).

(** [hub.WithScope(f)], [body] being the calls [f] makes. *)
Definition Hub_WithScope (hub : Hub) (body : list ScopeCall) : M unit :=
  emit (HubWithScope hub body).

(** The [slog.Handler] interface. *)
Class slog_Handler (H : Type) : Type := {
  Enabled : H -> Context -> slog_Level -> bool;
  Handle : H -> Context -> slog_Record -> M (option error);
  WithAttrs : H -> list slog_Attr -> H;
  WithGroup : H -> string -> H
}.

(** ** handler.go *)

Definition shortErrKey : string := "err".
Definition longErrKey : string := "error".
Definition tagAttrPrefix : string := "tag_".

Definition slogDefaultKeys : list string :=
  [slog_TimeKey; slog_LevelKey; slog_SourceKey; slog_MessageKey; shortErrKey; longErrKey].

(** [slices.Contains]. *)
Fixpoint slices_Contains {A} `{EqDecision A} (s : list A) (v : A) : bool :=
  match s with
  | [] => false
  | x :: s' => if bool_decide (v = x) then true else slices_Contains s' v
  end.

(** [strings.HasPrefix]. *)
Definition strings_HasPrefix (s prefix : string) : bool := String.prefix prefix s.

Record SentryHandler (H : Type) : Type := {
  Handler : H;
  levels : list slog_Level;
  storedAttrs : list slog_Attr
}.
Arguments Handler {H} _.
Arguments levels {H} _.
Arguments storedAttrs {H} _.

Definition NewSentryHandler {H} (handler : H) (levels : list slog_Level)
  : SentryHandler H :=
  {| Handler := handler; levels := levels; storedAttrs := [] |}.

(** The assignment [h.storedAttrs = attrs]. *)
Definition set_storedAttrs {H} (h : SentryHandler H) (attrs : list slog_Attr)
  : SentryHandler H :=
  {| Handler := Handler h; levels := levels h; storedAttrs := attrs |}.

(** The three variables of [Handle] that the closure [handleAttr] writes. *)
Record Scan : Type := {
  err : option error;
  slogContext : gmap string string;
  tags : gmap string string
}.

Definition scanStart : Scan := {| err := None; slogContext := ∅; tags := ∅ |}.

Definition handleAttr (st : Scan) (attr : slog_Attr) : Scan :=
  if strings_HasPrefix (Key attr) tagAttrPrefix then
    {| err := err st;
       slogContext := slogContext st;
       tags := <[Key attr := Value_String (Value attr)]> (tags st) |}
  else if negb (slices_Contains slogDefaultKeys (Key attr)) then
    {| err := err st;
       slogContext := <[Key attr := Value_String (Value attr)]> (slogContext st);
       tags := tags st |}
  else if bool_decide (Key attr = shortErrKey) || bool_decide (Key attr = longErrKey) then
    let (err', ok) := assert_error (Value_Any (Value attr)) in
    if negb ok then
      {| err := err';
         slogContext := <[Key attr := Value_String (Value attr)]> (slogContext st);
         tags := tags st |}
    else
      {| err := err'; slogContext := slogContext st; tags := tags st |}
  else st.

(** The two loops of [Handle]: over [s.storedAttrs], then [record.Attrs]. *)
Definition scanAttrs (stored : list slog_Attr) (record : slog_Record) : Scan :=
  let st := fold_left handleAttr stored scanStart in
  fold_left handleAttr (Attrs record) st.

(** The callback passed to [hub.WithScope]. *)
Definition scopeCalls (st : Scan) (record : slog_Record) : list ScopeCall :=
  (if (0 <? size (slogContext st))%nat then [SetContext "slog" (slogContext st)] else [])
  ++ (if (0 <? size (tags st))%nat then [SetTags (tags st)] else [])
  ++ (if bool_decide (Level record = slog_LevelError) then
        [CaptureException (SlogError (Message record) (err st))]
      else if bool_decide (Level record = slog_LevelDebug)
              || bool_decide (Level record = slog_LevelInfo)
              || bool_decide (Level record = slog_LevelWarn) then
        [CaptureMessage (Message record)]
      else []).

Section Methods.
Context {H : Type} `{slog_Handler H}.

Definition SentryHandler_Enabled (s : SentryHandler H) (ctx : Context)
    (level : slog_Level) : bool :=
  Enabled (Handler s) ctx level.

Definition SentryHandler_Handle (s : SentryHandler H) (ctx : Context)
    (record : slog_Record) : M (option error) :=
  if slices_Contains (levels s) (Level record) then
    (let* hub := match sentry_GetHubFromContext ctx with
                 | Some hub => ret (Some hub)
                 | None => sentry_CurrentHub
                 end in
     match hub with
     | None => ret (Some (fmt_Errorf "sentry: hub is nil"))
     | Some hub =>
         Hub_WithScope hub (scopeCalls (scanAttrs (storedAttrs s) record) record) ;;
         Handle (Handler s) ctx record
     end)%go
  else Handle (Handler s) ctx record.

Definition SentryHandler_WithAttrs (s : SentryHandler H) (attrs : list slog_Attr)
    : SentryHandler H :=
  let newHandler := NewSentryHandler (WithAttrs (Handler s) attrs) (levels s) in
  let newHandler := set_storedAttrs newHandler attrs in
  newHandler.

Definition SentryHandler_WithGroup (s : SentryHandler H) (name : string)
    : SentryHandler H :=
  NewSentryHandler (WithGroup (Handler s) name) (levels s).

#[export] Instance SentryHandler_slog_Handler : slog_Handler (SentryHandler H) := {
  Enabled := SentryHandler_Enabled;
  Handle := SentryHandler_Handle;
  WithAttrs := SentryHandler_WithAttrs;
  WithGroup := SentryHandler_WithGroup
}.
End Methods.

(** ** The revision of handler.go without a tag map

    The same package before [tagAttrPrefix] was introduced: [handleAttr]
    has no tag branch, the scope receives no tags, and [WithAttrs] goes
    through [NewSentryHandlerWithStoredAttrs]. The types are shared with
    the current revision. *)
Module Untagged.

Record Scan : Type := {
  err : option error;
  slogContext : gmap string string
}.

Definition scanStart : Scan := {| err := None; slogContext := ∅ |}.

Definition handleAttr (st : Scan) (attr : slog_Attr) : Scan :=
  if negb (slices_Contains slogDefaultKeys (Key attr)) then
    {| err := err st;
       slogContext := <[Key attr := Value_String (Value attr)]> (slogContext st) |}
  else if bool_decide (Key attr = shortErrKey) || bool_decide (Key attr = longErrKey) then
    let (err', ok) := assert_error (Value_Any (Value attr)) in
    if negb ok then
      {| err := err';
         slogContext := <[Key attr := Value_String (Value attr)]> (slogContext st) |}
    else
      {| err := err'; slogContext := slogContext st |}
  else st.

Definition scanAttrs (stored : list slog_Attr) (record : slog_Record) : Scan :=
  let st := fold_left handleAttr stored scanStart in
  fold_left handleAttr (Attrs record) st.

Definition scopeCalls (st : Scan) (record : slog_Record) : list ScopeCall :=
  (if (0 <? size (slogContext st))%nat then [SetContext "slog" (slogContext st)] else [])
  ++ (if bool_decide (Level record = slog_LevelError) then
        [CaptureException (SlogError (Message record) (err st))]
      else if bool_decide (Level record = slog_LevelDebug)
              || bool_decide (Level record = slog_LevelInfo)
              || bool_decide (Level record = slog_LevelWarn) then
        [CaptureMessage (Message record)]
      else []).

Definition NewSentryHandlerWithStoredAttrs {H} (handler : H)
    (levels : list slog_Level) (storedAttrs : list slog_Attr) : SentryHandler H :=
  let newHandler := NewSentryHandler handler levels in
  let newHandler := set_storedAttrs newHandler storedAttrs in
  newHandler.

Section Methods.
Context {H : Type} `{slog_Handler H}.

Definition SentryHandler_Handle (s : SentryHandler H) (ctx : Context)
    (record : slog_Record) : M (option error) :=
  if slices_Contains (levels s) (Level record) then
    (let* hub := match sentry_GetHubFromContext ctx with
                 | Some hub => ret (Some hub)
                 | None => sentry_CurrentHub
                 end in
     match hub with
     | None => ret (Some (fmt_Errorf "sentry: hub is nil"))
     | Some hub =>
         Hub_WithScope hub (scopeCalls (scanAttrs (storedAttrs s) record) record) ;;
         Handle (Handler s) ctx record
     end)%go
  else Handle (Handler s) ctx record.

Definition SentryHandler_WithAttrs (s : SentryHandler H) (attrs : list slog_Attr)
    : SentryHandler H :=
  NewSentryHandlerWithStoredAttrs (WithAttrs (Handler s) attrs) (levels s) attrs.
End Methods.

End Untagged.

(** ** A sink to run the handler against

    A leaf [slog.Handler] that records the call it receives and returns a
    fixed result. *)
Record ListSink : Type := {
  sinkAttrs : list slog_Attr;
  sinkGroups : list string;
  sinkMinLevel : slog_Level;
  sinkResult : option error
}.

#[export] Instance ListSink_slog_Handler : slog_Handler ListSink := {
  Enabled h _ level := bool_decide (sinkMinLevel h ≤ level)%Z;
  Handle h _ record :=
    (emit (SinkHandle (sinkAttrs h) (sinkGroups h) record) ;; ret (sinkResult h))%go;
  WithAttrs h attrs :=
    {| sinkAttrs := sinkAttrs h ++ attrs; sinkGroups := sinkGroups h;
       sinkMinLevel := sinkMinLevel h; sinkResult := sinkResult h |};
  WithGroup h name :=
    {| sinkAttrs := sinkAttrs h; sinkGroups := sinkGroups h ++ [name];
       sinkMinLevel := sinkMinLevel h; sinkResult := sinkResult h |}
}.

Definition stdoutSink : ListSink :=
  {| sinkAttrs := []; sinkGroups := []; sinkMinLevel := slog_LevelInfo; sinkResult := None |}.

(** ** Inputs of the examples

    The first ones are those of the package's tests. *)


(** [context.Background()]. *)
Definition background : Context := {| ctxHub := None |}.

(** A process at its start: the SDK's current hub, no call made yet. *)
Definition withHub : World := {| currentHub := Some 1%positive; calls := [] |}.

(** The record and the handler of [TestHandleHandlesNilErrorAttr]. *)
Definition nilErrorRecord : slog_Record :=
  NewRecord 0 slog_LevelError "the message" 0
    [Attr "some_attr" (StringValue "yes"); Attr "error" (AnyValue Nil)].

Definition errorsOnly : SentryHandler ListSink :=
  NewSentryHandler stdoutSink [slog_LevelError].

Definition infoRecord : slog_Record :=
  NewRecord 0 slog_LevelInfo "started" 0 [Attr "port" (Int64Value 8080)].

(** A handler derived with a stored "error" attribute, and records that
    bring an error attribute of their own. *)
Definition storedFailure : error := errorString "stored failure".
Definition recordFailure : error := errorString "record failure".

Definition withStoredError : SentryHandler ListSink :=
  SentryHandler_WithAttrs errorsOnly [Attr "error" (AnyValue (IsError storedFailure))].

Definition failureRecord : slog_Record :=
  NewRecord 0 slog_LevelError "request failed" 0
    [Attr "error" (AnyValue (IsError recordFailure)); Attr "tag_route" (StringValue "/login")].

Definition resetRecord : slog_Record :=
  NewRecord 0 slog_LevelError "request failed" 0
    [Attr "err" (AnyValue (IsError recordFailure)); Attr "error" (StringValue "timeout")].

Definition plainErrorRecord : slog_Record :=
  NewRecord 0 slog_LevelError "disk full" 0 [Attr "path" (StringValue "/var")].

(** ** Vocabulary of the statements *)

(** The two reserved error keys. *)
Definition isErrKey (k : string) : Prop := k = shortErrKey ∨ k = longErrKey.

(** The reserved default keys that are not error keys. *)
Definition ignoredKeys : list string :=
  [slog_TimeKey; slog_LevelKey; slog_SourceKey; slog_MessageKey].

(** The error held by a value, if its dynamic type implements [error]. *)
Definition errorOf (v : slog_Value) : option error := fst (assert_error (Value_Any v)).

(** The hub [Handle] ends up with: the context's, else the current one. *)
Definition resolvedHub (ctx : Context) (w : World) : option Hub :=
  match ctxHub ctx with
  | Some hub => Some hub
  | None => currentHub w
  end.

(** The world once [hub.WithScope] has run a callback making [body]. *)
Definition reported (hub : Hub) (body : list ScopeCall) (w : World) : World :=
  {| currentHub := currentHub w; calls := calls w ++ [HubWithScope hub body] |}.

(** The events a scope callback submits to Sentry. *)
Definition isSubmission (c : ScopeCall) : bool :=
  match c with
  | CaptureException _ | CaptureMessage _ => true
  | SetContext _ _ | SetTags _ => false
  end.

Definition submissions (body : list ScopeCall) : list ScopeCall :=
  List.filter isSubmission body.

(** One scan over stored attributes followed by record attributes. *)
Definition scanList (attrs : list slog_Attr) : Scan :=
  fold_left handleAttr attrs scanStart.

(** A scan of the current revision seen from the revision without tags. *)
Definition dropTags (st : Scan) : Untagged.Scan :=
  {| Untagged.err := err st; Untagged.slogContext := slogContext st |}.

(** ** Vocabulary of the further properties *)

(** The last attribute, in scan order, that satisfies [p]. *)
Definition lastWith (p : slog_Attr → bool) (l : list slog_Attr) : option slog_Attr :=
  fold_left (λ found a, if p a then Some a else found) l None.

Definition hasKey (k : string) (a : slog_Attr) : bool := bool_decide (Key a = k).

(** The string an attribute is stored as. *)
Definition rendering (a : slog_Attr) : string := Value_String (Value a).

(** An attribute under "err" or "error". *)
Definition underErrKey (a : slog_Attr) : bool :=
  bool_decide (Key a = shortErrKey) || bool_decide (Key a = longErrKey).

(** An attribute whose key starts with "tag_". *)
Definition isTag (a : slog_Attr) : bool := strings_HasPrefix (Key a) tagAttrPrefix.

(** An attribute that is neither a tag, nor under the time, level, source
    or message key, nor an error under an error key. *)
Definition isContext (a : slog_Attr) : bool :=
  negb (isTag a)
  && negb (slices_Contains ignoredKeys (Key a))
  && negb (underErrKey a && snd (assert_error (Value_Any (Value a)))).

(** One step of a chain of derivations, [h.WithAttrs(attrs)] or
    [h.WithGroup(name)], and the chain itself. *)
Inductive Derivation : Type :=
| ByAttrs (attrs : list slog_Attr)
| ByGroup (name : string).

Definition deriveWith {H} `{slog_Handler H} (h : H) (d : Derivation) : H :=
  match d with
  | ByAttrs attrs => WithAttrs h attrs
  | ByGroup name => WithGroup h name
  end.

Definition derive {H} `{slog_Handler H} (h : H) (ds : list Derivation) : H :=
  fold_left deriveWith ds h.

(** One scan of the revision without tags. *)
Definition Untagged_scanList (attrs : list slog_Attr) : Untagged.Scan :=
  fold_left Untagged.handleAttr attrs Untagged.scanStart.

(** A context that carries a hub of its own. *)
Definition requestContext : Context := {| ctxHub := Some 2%positive |}.

(** * Properties *)

(** ** Keys *)

Lemma slices_Contains_elem_of {A} `{EqDecision A} (s : list A) (v : A) :
  slices_Contains s v = true ↔ v ∈ s.
Proof.
  induction s as [|x s IH]; simpl.
  - split; [discriminate | intros Hin; inversion Hin].
  - case_bool_decide as Hx.
    + subst. split; [intros _; left | reflexivity].
    + rewrite IH. split; [by right | ].
      intros Hin. apply elem_of_cons in Hin as [? | ?]; [contradiction | assumption].
Qed.

Lemma slices_Contains_not_elem_of {A} `{EqDecision A} (s : list A) (v : A) :
  slices_Contains s v = false ↔ v ∉ s.
Proof.
  rewrite <- slices_Contains_elem_of. destruct (slices_Contains s v); split; congruence.
Qed.

Lemma isErrKey_test k :
  bool_decide (k = shortErrKey) || bool_decide (k = longErrKey) = true ↔ isErrKey k.
Proof.
  unfold isErrKey. rewrite orb_true_iff, !bool_decide_eq_true. reflexivity.
Qed.

Lemma isErrKey_not_tag k : isErrKey k → strings_HasPrefix k tagAttrPrefix = false.
Proof. intros [-> | ->]; reflexivity. Qed.

Lemma isErrKey_default k : isErrKey k → slices_Contains slogDefaultKeys k = true.
Proof. intros [-> | ->]; reflexivity. Qed.

Lemma ignoredKeys_not_tag k : k ∈ ignoredKeys → strings_HasPrefix k tagAttrPrefix = false.
Proof.
  unfold ignoredKeys. rewrite !elem_of_cons, elem_of_nil.
  intros [-> | [-> | [-> | [-> | []]]]]; reflexivity.
Qed.

Lemma ignoredKeys_default k : k ∈ ignoredKeys → slices_Contains slogDefaultKeys k = true.
Proof.
  unfold ignoredKeys. rewrite !elem_of_cons, elem_of_nil.
  intros [-> | [-> | [-> | [-> | []]]]]; reflexivity.
Qed.

Lemma ignoredKeys_not_err k : k ∈ ignoredKeys → ¬ isErrKey k.
Proof.
  unfold ignoredKeys. rewrite !elem_of_cons, elem_of_nil.
  intros [-> | [-> | [-> | [-> | []]]]] [? | ?]; discriminate.
Qed.

Lemma errorOf_Some v e : errorOf v = Some e ↔ Value_Any v = IsError e.
Proof.
  unfold errorOf. destruct (Value_Any v); simpl; split; congruence.
Qed.

(** ** One step of the scan *)

Lemma handleAttr_tag st a :
  strings_HasPrefix (Key a) tagAttrPrefix = true →
  handleAttr st a =
    {| err := err st; slogContext := slogContext st;
       tags := <[Key a := Value_String (Value a)]> (tags st) |}.
Proof. intros Hp. unfold handleAttr. rewrite Hp. reflexivity. Qed.

Lemma handleAttr_plain st a :
  strings_HasPrefix (Key a) tagAttrPrefix = false →
  slices_Contains slogDefaultKeys (Key a) = false →
  handleAttr st a =
    {| err := err st;
       slogContext := <[Key a := Value_String (Value a)]> (slogContext st);
       tags := tags st |}.
Proof. intros Hp Hd. unfold handleAttr. rewrite Hp, Hd. reflexivity. Qed.

Lemma handleAttr_error st a e :
  isErrKey (Key a) → errorOf (Value a) = Some e →
  handleAttr st a = {| err := Some e; slogContext := slogContext st; tags := tags st |}.
Proof.
  intros Hk He. apply errorOf_Some in He. unfold handleAttr.
  rewrite (isErrKey_not_tag _ Hk), (isErrKey_default _ Hk).
  apply isErrKey_test in Hk. simpl negb. cbv iota. rewrite Hk, He. reflexivity.
Qed.

Lemma handleAttr_not_error st a :
  isErrKey (Key a) → errorOf (Value a) = None →
  handleAttr st a =
    {| err := None;
       slogContext := <[Key a := Value_String (Value a)]> (slogContext st);
       tags := tags st |}.
Proof.
  intros Hk He. unfold errorOf in He. unfold handleAttr.
  rewrite (isErrKey_not_tag _ Hk), (isErrKey_default _ Hk).
  apply isErrKey_test in Hk. simpl negb. cbv iota. rewrite Hk.
  destruct (Value_Any (Value a)); simpl in *; congruence.
Qed.

Lemma handleAttr_ignored st a : Key a ∈ ignoredKeys → handleAttr st a = st.
Proof.
  intros Hk. unfold handleAttr.
  rewrite (ignoredKeys_not_tag _ Hk), (ignoredKeys_default _ Hk). simpl negb. cbv iota.
  destruct (bool_decide (Key a = shortErrKey) || bool_decide (Key a = longErrKey)) eqn:Ht;
    [ | reflexivity].
  apply isErrKey_test in Ht. destruct (ignoredKeys_not_err _ Hk Ht).
Qed.

(** ** The whole scan *)

Lemma scanAttrs_scanList stored record :
  scanAttrs stored record = scanList (stored ++ Attrs record).
Proof. unfold scanAttrs, scanList. rewrite fold_left_app. reflexivity. Qed.

Lemma scan_snoc l a st :
  fold_left handleAttr (l ++ [a]) st = handleAttr (fold_left handleAttr l st) a.
Proof. rewrite fold_left_app. reflexivity. Qed.

Lemma scanList_split pre a post :
  scanList (pre ++ a :: post) = fold_left handleAttr post (handleAttr (scanList pre) a).
Proof. unfold scanList. rewrite fold_left_app. reflexivity. Qed.

Lemma handleAttr_err_other st a : ¬ isErrKey (Key a) → err (handleAttr st a) = err st.
Proof.
  intros Hk. unfold handleAttr.
  destruct (strings_HasPrefix _ _); [reflexivity | ].
  destruct (negb _); [reflexivity | ].
  destruct (bool_decide (Key a = shortErrKey) || bool_decide (Key a = longErrKey)) eqn:Ht;
    [ | reflexivity].
  apply isErrKey_test in Ht. contradiction.
Qed.

Lemma handleAttr_context_other st a k :
  Key a ≠ k → slogContext (handleAttr st a) !! k = slogContext st !! k.
Proof.
  intros Hk. unfold handleAttr.
  repeat match goal with
         | |- context [if ?b then _ else _] => destruct b
         | |- context [let (_, _) := ?p in _] => destruct p
         end; simpl; try reflexivity; by rewrite lookup_insert_ne.
Qed.

Lemma handleAttr_tags_other st a k :
  Key a ≠ k → tags (handleAttr st a) !! k = tags st !! k.
Proof.
  intros Hk. unfold handleAttr.
  repeat match goal with
         | |- context [if ?b then _ else _] => destruct b
         | |- context [let (_, _) := ?p in _] => destruct p
         end; simpl; try reflexivity; by rewrite lookup_insert_ne.
Qed.

Lemma handleAttr_context_tag_key st a k :
  strings_HasPrefix k tagAttrPrefix = true →
  slogContext (handleAttr st a) !! k = slogContext st !! k.
Proof.
  intros Hp. destruct (decide (Key a = k)) as [<- | Hne].
  - rewrite handleAttr_tag by assumption. reflexivity.
  - by apply handleAttr_context_other.
Qed.

Lemma handleAttr_context_err_key st a k :
  isErrKey k → (Key a = k → errorOf (Value a) ≠ None) →
  slogContext (handleAttr st a) !! k = slogContext st !! k.
Proof.
  intros Hk Ha. destruct (decide (Key a = k)) as [Heq | Hne].
  - specialize (Ha Heq). destruct (errorOf (Value a)) as [e|] eqn:He; [ | contradiction].
    rewrite (handleAttr_error st a e); [reflexivity | by rewrite Heq | assumption].
  - by apply handleAttr_context_other.
Qed.

Lemma scan_err_preserved l st :
  Forall (λ b, ¬ isErrKey (Key b)) l → err (fold_left handleAttr l st) = err st.
Proof.
  revert st. induction l as [|b l IH]; intros st Hl; simpl; [reflexivity | ].
  inversion Hl; subst. rewrite IH by assumption. by apply handleAttr_err_other.
Qed.

Lemma scan_context_tag_key l st k :
  strings_HasPrefix k tagAttrPrefix = true →
  slogContext (fold_left handleAttr l st) !! k = slogContext st !! k.
Proof.
  intros Hp. revert st. induction l as [|b l IH]; intros st; simpl; [reflexivity | ].
  rewrite IH. by apply handleAttr_context_tag_key.
Qed.

Lemma scan_context_err_key l st k :
  isErrKey k →
  Forall (λ b, Key b = k → errorOf (Value b) ≠ None) l →
  slogContext (fold_left handleAttr l st) !! k = slogContext st !! k.
Proof.
  intros Hk. revert st. induction l as [|b l IH]; intros st Hl; simpl; [reflexivity | ].
  inversion Hl; subst. rewrite IH by assumption. by apply handleAttr_context_err_key.
Qed.

Lemma scan_tags_other l st k :
  Forall (λ b, Key b ≠ k) l → tags (fold_left handleAttr l st) !! k = tags st !! k.
Proof.
  revert st. induction l as [|b l IH]; intros st Hl; simpl; [reflexivity | ].
  inversion Hl; subst. rewrite IH by assumption. by apply handleAttr_tags_other.
Qed.

Lemma scan_ignored_erased l st :
  fold_left handleAttr (List.filter (λ a, negb (slices_Contains ignoredKeys (Key a))) l) st
  = fold_left handleAttr l st.
Proof.
  revert st. induction l as [|b l IH]; intros st; [reflexivity | ].
  cbn [List.filter fold_left].
  destruct (slices_Contains ignoredKeys (Key b)) eqn:Hb; cbn [negb fold_left].
  - apply slices_Contains_elem_of in Hb. rewrite (handleAttr_ignored st b Hb). apply IH.
  - apply IH.
Qed.

Lemma no_err_key_no_context_write k post :
  Forall (λ b, ¬ isErrKey (Key b)) post → isErrKey k →
  Forall (λ b, Key b = k → errorOf (Value b) ≠ None) post.
Proof.
  intros Hpost Hk. eapply Forall_impl; [exact Hpost | ].
  intros b Hb Heq. exfalso. apply Hb. rewrite Heq. exact Hk.
Qed.

(** ** The scope callback *)

Lemma submissions_scopeCalls st record :
  submissions (scopeCalls st record) =
    if bool_decide (Level record = slog_LevelError) then
      [CaptureException (SlogError (Message record) (err st))]
    else if bool_decide (Level record = slog_LevelDebug)
            || bool_decide (Level record = slog_LevelInfo)
            || bool_decide (Level record = slog_LevelWarn) then
      [CaptureMessage (Message record)]
    else [].
Proof.
  unfold submissions, scopeCalls. rewrite !List.filter_app.
  destruct (0 <? size (slogContext st))%nat, (0 <? size (tags st))%nat; simpl;
    repeat match goal with
           | |- context [if ?b then _ else _] => destruct b
           end; reflexivity.
Qed.

(** ** The three ways through [Handle] *)

Section HandlePaths.
Context {H : Type} `{slog_Handler H}.
Implicit Types (s : SentryHandler H) (ctx : Context) (record : slog_Record) (w : World).

Lemma Handle_not_forwarded s ctx record w :
  Level record ∉ levels s →
  SentryHandler_Handle s ctx record w = Handle (Handler s) ctx record w.
Proof.
  intros Hl. apply slices_Contains_not_elem_of in Hl.
  unfold SentryHandler_Handle. rewrite Hl. reflexivity.
Qed.

Lemma Handle_forwarded s ctx record w hub :
  Level record ∈ levels s → resolvedHub ctx w = Some hub →
  SentryHandler_Handle s ctx record w =
    Handle (Handler s) ctx record
      (reported hub (scopeCalls (scanAttrs (storedAttrs s) record) record) w).
Proof.
  intros Hl Hh. apply slices_Contains_elem_of in Hl.
  unfold SentryHandler_Handle, resolvedHub, sentry_GetHubFromContext in *. rewrite Hl.
  unfold bind, sentry_CurrentHub, ret.
  destruct (ctxHub ctx) as [h|]; simplify_eq; [reflexivity | ].
  rewrite Hh. reflexivity.
Qed.

Lemma Handle_no_hub s ctx record w :
  Level record ∈ levels s → resolvedHub ctx w = None →
  SentryHandler_Handle s ctx record w = (Some (errorString "sentry: hub is nil"), w).
Proof.
  intros Hl Hh. apply slices_Contains_elem_of in Hl.
  unfold SentryHandler_Handle, resolvedHub, sentry_GetHubFromContext in *. rewrite Hl.
  unfold bind, sentry_CurrentHub, ret.
  destruct (ctxHub ctx) as [h|]; [discriminate | ].
  rewrite Hh. reflexivity.
Qed.
End HandlePaths.

(** ** SlogError *)

Lemma append_assoc (s1 s2 s3 : string) : (s1 ++ s2) ++ s3 = s1 ++ s2 ++ s3.
Proof.
  induction s1 as [|c s1 IH]; [reflexivity | ].
  change (String c ((s1 ++ s2) ++ s3) = String c (s1 ++ s2 ++ s3)). by rewrite IH.
Qed.



(** ** Handle *)

Section HandleClaims.
Context {H : Type} `{slog_Handler H}.
Implicit Types (s : SentryHandler H) (ctx : Context) (record : slog_Record) (w : World).

(** C7. A record whose level is not in the handler's level set is handed
    to the wrapped handler and nothing else happens: [Handle] is the
    wrapped handler's [Handle] on the same world, whatever attributes are
    stored. With an empty level set this holds for every record. *)
Theorem Handle_level_not_configured s ctx record w :
  Level record ∉ levels s →
  SentryHandler_Handle s ctx record w = Handle (Handler s) ctx record w
  ∧ (∀ attrs, SentryHandler_Handle (set_storedAttrs s attrs) ctx record w
              = Handle (Handler s) ctx record w)
  ∧ (∀ inner record',
       SentryHandler_Handle (NewSentryHandler inner []) ctx record' w
       = Handle inner ctx record' w).
Proof.
  intros Hl. split; [ | split].
  - by apply Handle_not_forwarded.
  - intros attrs. by apply (Handle_not_forwarded (set_storedAttrs s attrs)).
  - intros inner record'. apply Handle_not_forwarded. simpl. apply not_elem_of_nil.
Qed.


(** C5. A forwarded record is dispatched on its level: at Error one
    exception, the [SlogError] of the record's message and the carried
    error; at Debug, Info or Warn one message, the record's message; at
    any other level nothing is submitted. In each case [Handle] goes on
    to the wrapped handler, so no error comes from the dispatch. *)
Theorem Handle_dispatch_by_level s ctx record w hub :
  Level record ∈ levels s → resolvedHub ctx w = Some hub →
  ∃ body,
    SentryHandler_Handle s ctx record w
    = Handle (Handler s) ctx record (reported hub body w)
    ∧ (Level record = slog_LevelError →
       submissions body =
         [CaptureException
            (SlogError (Message record) (err (scanAttrs (storedAttrs s) record)))])
    ∧ (Level record ∈ [slog_LevelDebug; slog_LevelInfo; slog_LevelWarn] →
       submissions body = [CaptureMessage (Message record)])
    ∧ (Level record ∉ [slog_LevelError; slog_LevelDebug; slog_LevelInfo; slog_LevelWarn] →
       submissions body = []).
Proof.
  intros Hl Hh. eexists. split; [by apply Handle_forwarded | ].
  rewrite submissions_scopeCalls. repeat split.
  - intros ->. reflexivity.
  - rewrite !elem_of_cons, elem_of_nil. intros [-> | [-> | [-> | []]]]; reflexivity.
  - rewrite !elem_of_cons, elem_of_nil. intros Hne.
    repeat case_bool_decide; simpl; try reflexivity; exfalso; apply Hne; auto.
Qed.
End HandleClaims.

Lemma Handle_level_not_configured_test :
  (Level infoRecord ∉ levels errorsOnly)
  ∧ SentryHandler_Handle errorsOnly background infoRecord withHub
    = (None, {| currentHub := Some 1%positive; calls := [SinkHandle [] [] infoRecord] |}).
Proof.
  assert (Hl : Level infoRecord ∉ levels errorsOnly).
  { apply slices_Contains_not_elem_of. reflexivity. }
  split; [exact Hl | ].
  rewrite (proj1 (Handle_level_not_configured errorsOnly background infoRecord withHub Hl)).
  reflexivity.
Defined.


Lemma Handle_dispatch_by_level_test :
  Level nilErrorRecord ∈ levels errorsOnly
  ∧ resolvedHub background withHub = Some 1%positive
  ∧ ∃ body,
      SentryHandler_Handle errorsOnly background nilErrorRecord withHub
      = Handle (Handler errorsOnly) background nilErrorRecord (reported 1%positive body withHub)
      ∧ (Level nilErrorRecord = slog_LevelError →
         submissions body =
           [CaptureException
              (SlogError (Message nilErrorRecord)
                 (err (scanAttrs (storedAttrs errorsOnly) nilErrorRecord)))])
      ∧ (Level nilErrorRecord ∈ [slog_LevelDebug; slog_LevelInfo; slog_LevelWarn] →
         submissions body = [CaptureMessage (Message nilErrorRecord)])
      ∧ (Level nilErrorRecord ∉ [slog_LevelError; slog_LevelDebug; slog_LevelInfo; slog_LevelWarn] →
         submissions body = []).
Proof.
  assert (Hl : Level nilErrorRecord ∈ levels errorsOnly) by left.
  split; [exact Hl | ]. split; [reflexivity | ].
  exact (Handle_dispatch_by_level errorsOnly background nilErrorRecord withHub 1%positive
           Hl eq_refl).
Defined.

(** ** Classification *)

(** C2. An attribute whose key starts with "tag_" is classified by the
    first branch of [handleAttr], before the reserved keys are looked at:
    its string rendering is stored in the tag map under the full key, and
    the context map and the carried error are left as they were. After a
    whole scan the context map has no entry under such a key, and the tag
    map holds the rendering of the last attribute with that key. *)
Theorem tag_attr_classified_as_tag (a : slog_Attr) :
  strings_HasPrefix (Key a) tagAttrPrefix = true →
  (∀ st, handleAttr st a =
           {| err := err st; slogContext := slogContext st;
              tags := <[Key a := Value_String (Value a)]> (tags st) |})
  ∧ (∀ stored record, slogContext (scanAttrs stored record) !! Key a = None)
  ∧ (∀ (stored : list slog_Attr) record pre post,
       (stored ++ Attrs record = pre ++ a :: post)%list →
       Forall (λ b, Key b ≠ Key a) post →
       tags (scanAttrs stored record) !! Key a = Some (Value_String (Value a))).
Proof.
  intros Hp. split; [ | split].
  - intros st. by apply handleAttr_tag.
  - intros stored record. rewrite scanAttrs_scanList. unfold scanList.
    rewrite scan_context_tag_key by assumption. apply lookup_empty.
  - intros stored record pre post Hsplit Hpost.
    rewrite scanAttrs_scanList, Hsplit, scanList_split.
    rewrite scan_tags_other by assumption.
    rewrite handleAttr_tag by assumption. simpl. apply lookup_insert_eq.
Qed.

(** C9. An attribute under the time, level, source or message key leaves
    the scan as it was: nothing is added to the context map or the tag
    map and the carried error is untouched. Dropping all such attributes
    from a scan does not change its outcome. *)
Theorem default_key_attr_ignored (a : slog_Attr) :
  Key a ∈ ignoredKeys →
  strings_HasPrefix (Key a) tagAttrPrefix = false
  ∧ (∀ st, handleAttr st a = st)
  ∧ (∀ pre post, scanList (pre ++ a :: post)%list = scanList (pre ++ post)%list)
  ∧ (∀ l, scanList (List.filter (λ b, negb (slices_Contains ignoredKeys (Key b))) l)
          = scanList l).
Proof.
  intros Hk. split; [by apply ignoredKeys_not_tag | split; [ | split]].
  - intros st. by apply handleAttr_ignored.
  - intros pre post. rewrite scanList_split, handleAttr_ignored by assumption.
    unfold scanList. by rewrite fold_left_app.
  - intros l. apply scan_ignored_erased.
Qed.

(** ** The carried error *)

Section CarriedError.
Context {H : Type} `{slog_Handler H}.
Implicit Types (s : SentryHandler H) (ctx : Context) (record : slog_Record) (w : World).
Implicit Types (pre mid post : list slog_Attr) (a b : slog_Attr).


(** C10. When an attribute under an error key holding an error is
    followed, later in the scan, by an attribute under an error key whose
    value is not an error, the error extracted from the first is gone once
    the second has been classified: the carried error is [nil] and the
    second attribute's rendering is in the context map under its key. When
    no attribute under an error key comes after the second, this is the
    outcome of the scan, and an Error-level record is reported as a
    [SlogError] of the message alone, which prints as the message. *)
Theorem Handle_error_reset_by_non_error s ctx record w hub pre a mid b post e :
  Level record = slog_LevelError →
  Level record ∈ levels s → resolvedHub ctx w = Some hub →
  (storedAttrs s ++ Attrs record = pre ++ a :: mid ++ b :: post)%list →
  isErrKey (Key a) → errorOf (Value a) = Some e →
  isErrKey (Key b) → errorOf (Value b) = None →
  err (scanList (pre ++ [a])) = Some e
  ∧ err (scanList ((pre ++ a :: mid) ++ [b])) = None
  ∧ slogContext (scanList ((pre ++ a :: mid) ++ [b])) !! Key b
    = Some (Value_String (Value b))
  ∧ (Forall (λ c, ¬ isErrKey (Key c)) post →
     err (scanAttrs (storedAttrs s) record) = None
     ∧ slogContext (scanAttrs (storedAttrs s) record) !! Key b
       = Some (Value_String (Value b))
     ∧ ∃ body,
         SentryHandler_Handle s ctx record w
         = Handle (Handler s) ctx record (reported hub body w)
         ∧ submissions body = [CaptureException (SlogError (Message record) None)]
         ∧ Error (SlogError (Message record) None) = Message record).
Proof.
  intros Hlev Hl Hh Hsplit Hka Hea Hkb Heb.
  assert (Hstep : ∀ st, handleAttr st b =
                          {| err := None;
                             slogContext := <[Key b := Value_String (Value b)]> (slogContext st);
                             tags := tags st |})
    by (intros st; by apply handleAttr_not_error).
  split; [ | split; [ | split]].
  - unfold scanList. rewrite scan_snoc. by rewrite (handleAttr_error _ a e).
  - unfold scanList. by rewrite scan_snoc, Hstep.
  - unfold scanList. rewrite scan_snoc, Hstep. simpl. apply lookup_insert_eq.
  - intros Hpost.
    assert (Hscan : scanAttrs (storedAttrs s) record
                    = fold_left handleAttr post
                        (handleAttr (scanList (pre ++ a :: mid)) b)).
    { rewrite scanAttrs_scanList, Hsplit.
      replace (pre ++ a :: mid ++ b :: post)%list
        with ((pre ++ a :: mid) ++ b :: post)%list
        by (by rewrite <- app_assoc).
      apply scanList_split. }
    assert (Herr : err (scanAttrs (storedAttrs s) record) = None).
    { rewrite Hscan, scan_err_preserved by assumption. by rewrite Hstep. }
    split; [exact Herr | split].
    + rewrite Hscan.
      rewrite scan_context_err_key
        by (try assumption; by apply no_err_key_no_context_write).
      rewrite Hstep. simpl. apply lookup_insert_eq.
    + eexists. split; [by apply Handle_forwarded | ].
      rewrite submissions_scopeCalls, Herr.
      by rewrite bool_decide_eq_true_2.
Qed.

(** C4. An attribute under "err" or "error" whose value is not an error
    (a string, or an untyped nil) is classified without failure: the
    type assertion is the two-result form, the carried error becomes
    [nil] and the value's rendering is stored in the context map under
    the key, where it stays unless a later attribute under the same key
    replaces it. With a hub at hand, [Handle] is the wrapped handler's
    [Handle], after the report when the level is forwarded, so it
    returns [nil] whenever the wrapped handler does. *)
Theorem Handle_non_error_attr_kept_as_context s ctx record w hub pre a post :
  resolvedHub ctx w = Some hub →
  (storedAttrs s ++ Attrs record = pre ++ a :: post)%list →
  isErrKey (Key a) → errorOf (Value a) = None →
  let w' :=
    if slices_Contains (levels s) (Level record)
    then reported hub (scopeCalls (scanAttrs (storedAttrs s) record) record) w
    else w in
  (∀ st, handleAttr st a =
           {| err := None;
              slogContext := <[Key a := Value_String (Value a)]> (slogContext st);
              tags := tags st |})
  ∧ (Forall (λ b, Key b = Key a → errorOf (Value b) ≠ None) post →
     slogContext (scanAttrs (storedAttrs s) record) !! Key a
     = Some (Value_String (Value a)))
  ∧ SentryHandler_Handle s ctx record w = Handle (Handler s) ctx record w'
  ∧ (fst (Handle (Handler s) ctx record w') = None →
     fst (SentryHandler_Handle s ctx record w) = None).
Proof.
  intros Hh Hsplit Hk He w'.
  assert (Hdel : SentryHandler_Handle s ctx record w = Handle (Handler s) ctx record w').
  { subst w'. destruct (slices_Contains (levels s) (Level record)) eqn:Hl.
    - apply Handle_forwarded; [by apply slices_Contains_elem_of | assumption].
    - apply Handle_not_forwarded. by apply slices_Contains_not_elem_of. }
  split; [ | split; [ | split]].
  - intros st. by apply handleAttr_not_error.
  - intros Hpost. rewrite scanAttrs_scanList, Hsplit, scanList_split.
    rewrite scan_context_err_key by assumption.
    rewrite handleAttr_not_error by assumption. simpl. apply lookup_insert_eq.
  - exact Hdel.
  - intros Hok. by rewrite Hdel.
Qed.
End CarriedError.

(** ** WithAttrs *)

Section Derivation.
Context {H : Type} `{slog_Handler H}.
Implicit Types (s : SentryHandler H) (attrs prior : list slog_Attr).

(** C8. [WithAttrs] returns a handler around the wrapped handler's own
    [WithAttrs], with the same level set, whose stored attributes are the
    given ones and no others: what was stored before plays no part. A
    later [Handle] scans the given attributes and then the record's. *)
Theorem WithAttrs_replaces_stored s attrs :
  SentryHandler_WithAttrs s attrs
  = {| Handler := WithAttrs (Handler s) attrs; levels := levels s; storedAttrs := attrs |}
  ∧ (∀ prior, SentryHandler_WithAttrs (set_storedAttrs s prior) attrs
              = SentryHandler_WithAttrs s attrs)
  ∧ (∀ record, scanAttrs (storedAttrs (SentryHandler_WithAttrs s attrs)) record
               = scanList (attrs ++ Attrs record))
  ∧ (∀ ctx record w hub,
       Level record ∈ levels s → resolvedHub ctx w = Some hub →
       SentryHandler_Handle (SentryHandler_WithAttrs s attrs) ctx record w
       = Handle (WithAttrs (Handler s) attrs) ctx record
           (reported hub (scopeCalls (scanList (attrs ++ Attrs record)) record) w)).
Proof.
  split; [reflexivity | split; [reflexivity | split]].
  - intros record. apply scanAttrs_scanList.
  - intros ctx record w hub Hl Hh.
    rewrite (Handle_forwarded (SentryHandler_WithAttrs s attrs) ctx record w hub)
      by assumption.
    by rewrite scanAttrs_scanList.
Qed.
End Derivation.

Lemma WithAttrs_replaces_stored_test :
  storedAttrs withStoredError = [Attr "error" (AnyValue (IsError storedFailure))]
  ∧ SentryHandler_Handle
      (SentryHandler_WithAttrs withStoredError [Attr "service" (StringValue "api")])
      background plainErrorRecord withHub
    = (None,
       {| currentHub := Some 1%positive;
          calls :=
            [HubWithScope 1%positive
               [SetContext "slog" (<["path" := "/var"]> (<["service" := "api"]> ∅));
                CaptureException (SlogError "disk full" None)];
             SinkHandle
               [Attr "error" (AnyValue (IsError storedFailure));
                Attr "service" (StringValue "api")]
               [] plainErrorRecord] |}).
Proof.
  split; [reflexivity | ].
  destruct (WithAttrs_replaces_stored withStoredError [Attr "service" (StringValue "api")])
    as (_ & _ & _ & Hhandle).
  rewrite (Hhandle background plainErrorRecord withHub 1%positive);
    [vm_compute; reflexivity | by left | reflexivity].
Defined.

(** ** Runs of the classification theorems *)

Lemma tag_attr_classified_as_tag_test :
  strings_HasPrefix "tag_route" tagAttrPrefix = true
  ∧ slogContext (scanAttrs (storedAttrs withStoredError) failureRecord) !! "tag_route" = None
  ∧ tags (scanAttrs (storedAttrs withStoredError) failureRecord) !! "tag_route"
    = Some "/login".
Proof.
  split; [reflexivity | ].
  destruct (tag_attr_classified_as_tag (Attr "tag_route" (StringValue "/login")) eq_refl)
    as (_ & Hcontext & Htags).
  split.
  - exact (Hcontext (storedAttrs withStoredError) failureRecord).
  - apply (Htags (storedAttrs withStoredError) failureRecord
             [Attr "error" (AnyValue (IsError storedFailure));
              Attr "error" (AnyValue (IsError recordFailure))] []);
      [reflexivity | constructor].
Defined.

Lemma default_key_attr_ignored_test :
  "msg" ∈ ignoredKeys
  ∧ handleAttr scanStart (Attr "msg" (StringValue "shadow")) = scanStart.
Proof.
  assert (Hk : "msg" ∈ ignoredKeys).
  { apply slices_Contains_elem_of. reflexivity. }
  split; [exact Hk | ].
  destruct (default_key_attr_ignored (Attr "msg" (StringValue "shadow")) Hk)
    as (_ & Hstep & _).
  exact (Hstep scanStart).
Defined.


Lemma Handle_error_reset_by_non_error_test :
  Level resetRecord ∈ levels errorsOnly
  ∧ err (scanList [Attr "err" (AnyValue (IsError recordFailure))]) = Some recordFailure
  ∧ err (scanAttrs (storedAttrs errorsOnly) resetRecord) = None
  ∧ slogContext (scanAttrs (storedAttrs errorsOnly) resetRecord) !! "error" = Some "timeout"
  ∧ ∃ body,
      SentryHandler_Handle errorsOnly background resetRecord withHub
      = Handle (Handler errorsOnly) background resetRecord
          (reported 1%positive body withHub)
      ∧ submissions body = [CaptureException (SlogError "request failed" None)]
      ∧ Error (SlogError "request failed" None) = "request failed".
Proof.
  assert (Hl : Level resetRecord ∈ levels errorsOnly) by left.
  split; [exact Hl | ].
  destruct (Handle_error_reset_by_non_error errorsOnly background resetRecord withHub
              1%positive []
              (Attr "err" (AnyValue (IsError recordFailure))) []
              (Attr "error" (StringValue "timeout")) [] recordFailure
              eq_refl Hl eq_refl eq_refl
              (or_introl eq_refl) eq_refl (or_intror eq_refl) eq_refl)
    as (Hfirst & _ & _ & Hend).
  split; [exact Hfirst | ].
  apply Hend. constructor.
Defined.

Lemma Handle_non_error_attr_kept_as_context_test :
  Level nilErrorRecord ∈ levels errorsOnly
  ∧ errorOf (AnyValue Nil) = None
  ∧ slogContext (scanAttrs (storedAttrs errorsOnly) nilErrorRecord) !! "error"
    = Some "<nil>"
  ∧ fst (SentryHandler_Handle errorsOnly background nilErrorRecord withHub) = None.
Proof.
  assert (Hl : Level nilErrorRecord ∈ levels errorsOnly) by left.
  split; [exact Hl | ]. split; [reflexivity | ].
  destruct (Handle_non_error_attr_kept_as_context errorsOnly background nilErrorRecord
              withHub 1%positive
              [Attr "some_attr" (StringValue "yes")] (Attr "error" (AnyValue Nil)) []
              eq_refl eq_refl (or_intror eq_refl) eq_refl)
    as (_ & Hcontext & _ & Hok).
  split.
  - apply Hcontext. constructor.
  - apply Hok. reflexivity.
Defined.

(** ** The revision without tags

    On attributes whose keys do not start with "tag_" the two revisions
    do the same; they part on a tag key, which the earlier revision
    stores in the context map. *)

Lemma Untagged_handleAttr st a :
  strings_HasPrefix (Key a) tagAttrPrefix = false →
  dropTags (handleAttr st a) = Untagged.handleAttr (dropTags st) a
  ∧ tags (handleAttr st a) = tags st.
Proof.
  intros Hp. unfold handleAttr, Untagged.handleAttr. rewrite Hp.
  destruct (negb _); [by split | ].
  destruct (bool_decide (Key a = shortErrKey) || bool_decide (Key a = longErrKey));
    [ | by split].
  destruct (assert_error _) as [e ok]. destruct ok; by split.
Qed.

Lemma Untagged_scan l st :
  Forall (λ a, strings_HasPrefix (Key a) tagAttrPrefix = false) l →
  dropTags (fold_left handleAttr l st) = fold_left Untagged.handleAttr l (dropTags st)
  ∧ tags (fold_left handleAttr l st) = tags st.
Proof.
  revert st. induction l as [|a l IH]; intros st Hl; [by split | ].
  inversion Hl as [|? ? Ha Hl']; subst. cbn [fold_left].
  destruct (IH (handleAttr st a) Hl') as [IHd IHt].
  destruct (Untagged_handleAttr st a Ha) as [Hd Ht].
  split; [by rewrite IHd, Hd | by rewrite IHt, Ht].
Qed.

Lemma Untagged_scopeCalls st record :
  tags st = ∅ → scopeCalls st record = Untagged.scopeCalls (dropTags st) record.
Proof.
  intros Ht. unfold scopeCalls, Untagged.scopeCalls. rewrite Ht. reflexivity.
Qed.

Section UntaggedMethods.
Context {H : Type} `{slog_Handler H}.

Lemma Untagged_Handle (s : SentryHandler H) ctx record w :
  Forall (λ a, strings_HasPrefix (Key a) tagAttrPrefix = false)
    (storedAttrs s ++ Attrs record) →
  Untagged.SentryHandler_Handle s ctx record w = SentryHandler_Handle s ctx record w.
Proof.
  intros Hl. unfold Untagged.SentryHandler_Handle, SentryHandler_Handle.
  destruct (Untagged_scan (storedAttrs s ++ Attrs record) scanStart Hl) as [Hd Ht].
  assert (Hs : scanAttrs (storedAttrs s) record
               = fold_left handleAttr (storedAttrs s ++ Attrs record) scanStart)
    by apply scanAttrs_scanList.
  rewrite <- Hs in Hd, Ht.
  assert (Hu : Untagged.scanAttrs (storedAttrs s) record
               = dropTags (scanAttrs (storedAttrs s) record)).
  { rewrite Hd. unfold Untagged.scanAttrs. by rewrite fold_left_app. }
  by rewrite Hu, <- Untagged_scopeCalls.
Qed.

Lemma Untagged_WithAttrs (s : SentryHandler H) attrs :
  Untagged.SentryHandler_WithAttrs s attrs = SentryHandler_WithAttrs s attrs.
Proof. reflexivity. Qed.
End UntaggedMethods.

Example Untagged_tag_key_in_context :
  Untagged.slogContext
    (Untagged.scanAttrs [] failureRecord) !! "tag_route" = Some "/login"
  ∧ slogContext (scanAttrs [] failureRecord) !! "tag_route" = None
  ∧ tags (scanAttrs [] failureRecord) !! "tag_route" = Some "/login".
Proof. repeat split. Qed.


(** * Further properties *)

(** ** What one attribute does to each of the three variables *)

Lemma default_key_split k :
  slices_Contains slogDefaultKeys k
  = slices_Contains ignoredKeys k
    || (bool_decide (k = shortErrKey) || bool_decide (k = longErrKey)).
Proof.
  unfold slogDefaultKeys, ignoredKeys. cbn [slices_Contains].
  repeat case_bool_decide; reflexivity.
Qed.

Lemma err_key_never_tag_or_ignored a :
  underErrKey a = true → isTag a = false ∧ slices_Contains ignoredKeys (Key a) = false.
Proof.
  unfold underErrKey, isTag. intros Hk. apply isErrKey_test in Hk.
  split; [by apply isErrKey_not_tag | ].
  apply slices_Contains_not_elem_of. intros Hi. by apply (ignoredKeys_not_err _ Hi).
Qed.

Lemma handleAttr_err st a :
  err (handleAttr st a) = if underErrKey a then errorOf (Value a) else err st.
Proof.
  destruct (underErrKey a) eqn:Hk.
  - apply isErrKey_test in Hk. destruct (errorOf (Value a)) as [e|] eqn:He.
    + by rewrite (handleAttr_error st a e).
    + by rewrite handleAttr_not_error.
  - apply handleAttr_err_other. intros Hk'. apply isErrKey_test in Hk'.
    unfold underErrKey in Hk. congruence.
Qed.

Lemma handleAttr_tags st a :
  tags (handleAttr st a) = if isTag a then <[Key a := rendering a]> (tags st) else tags st.
Proof.
  unfold isTag, handleAttr. destruct (strings_HasPrefix _ _); [reflexivity | ].
  repeat match goal with
         | |- context [if ?b then _ else _] => destruct b
         | |- context [let (_, _) := ?p in _] => destruct p
         end; reflexivity.
Qed.

Lemma handleAttr_slogContext st a :
  slogContext (handleAttr st a)
  = if isContext a then <[Key a := rendering a]> (slogContext st) else slogContext st.
Proof.
  unfold isContext, isTag, underErrKey, handleAttr.
  destruct (strings_HasPrefix _ _); [reflexivity | ].
  rewrite default_key_split.
  destruct (slices_Contains ignoredKeys (Key a)) eqn:Hi.
  - apply slices_Contains_elem_of in Hi.
    destruct (bool_decide (Key a = shortErrKey) || bool_decide (Key a = longErrKey)) eqn:Hk;
      [ | reflexivity].
    apply isErrKey_test in Hk. destruct (ignoredKeys_not_err _ Hi Hk).
  - destruct (bool_decide (Key a = shortErrKey) || bool_decide (Key a = longErrKey));
      [ | reflexivity].
    cbn [orb negb andb]. destruct (assert_error _) as [e' ok]. by destruct ok.
Qed.

Lemma isContext_not_isTag a : isContext a = true → isTag a = false.
Proof. unfold isContext. by destruct (isTag a). Qed.

Lemma lastWith_snoc p l a :
  lastWith p (l ++ [a]) = if p a then Some a else lastWith p l.
Proof. unfold lastWith. by rewrite fold_left_app. Qed.

Lemma lastWith_Some p l a : lastWith p l = Some a → p a = true ∧ a ∈ l.
Proof.
  induction l as [|b l IH] using rev_ind; [discriminate | ].
  rewrite lastWith_snoc. destruct (p b) eqn:Hb.
  - intros [= ->]. split; [assumption | ]. apply elem_of_app. right. by left.
  - intros Hl. destruct (IH Hl) as [Hp Hin]. split; [assumption | ].
    apply elem_of_app. by left.
Qed.

Lemma scanList_snoc l a : scanList (l ++ [a]) = handleAttr (scanList l) a.
Proof. apply scan_snoc. Qed.

Lemma last_writer (proj : Scan → gmap string string) (wr : slog_Attr → bool) :
  (∀ st a, proj (handleAttr st a)
           = if wr a then <[Key a := rendering a]> (proj st) else proj st) →
  proj scanStart = ∅ →
  ∀ l k, proj (scanList l) !! k = rendering <$> lastWith (λ a, hasKey k a && wr a) l.
Proof.
  intros Hstep Hstart l k. induction l as [|a l IH] using rev_ind.
  - unfold scanList. simpl. rewrite Hstart. apply lookup_empty.
  - rewrite scanList_snoc, lastWith_snoc, Hstep. unfold hasKey.
    case_bool_decide as Hk; destruct (wr a); cbn [andb]; try exact IH.
    + subst k. apply lookup_insert_eq.
    + by rewrite lookup_insert_ne.
Qed.

Lemma scanList_err l :
  err (scanList l)
  = match lastWith underErrKey l with
    | Some a => errorOf (Value a)
    | None => None
    end.
Proof.
  induction l as [|a l IH] using rev_ind; [reflexivity | ].
  rewrite scanList_snoc, lastWith_snoc, handleAttr_err.
  destruct (underErrKey a); [reflexivity | exact IH].
Qed.

(** ** The outcome of a scan, attribute by attribute *)

(** X1. After the scan, the context map holds under each key the rendering
    of the last attribute, stored attributes first and record attributes
    after, that has this key and is context (no tag, not under the time,
    level, source or message key, not an error under an error key); a key
    no such attribute has is absent. *)
Theorem scan_context_last_writer (stored : list slog_Attr) record k :
  slogContext (scanAttrs stored record) !! k
  = rendering <$> lastWith (λ a, hasKey k a && isContext a) (stored ++ Attrs record).
Proof.
  rewrite scanAttrs_scanList.
  apply (last_writer slogContext isContext); [apply handleAttr_slogContext | reflexivity].
Qed.

(** X2. After the scan, the tag map holds under each key the rendering of
    the last attribute with this key when the key starts with "tag_", and
    nothing under any other key. *)
Theorem scan_tags_last_writer (stored : list slog_Attr) record k :
  tags (scanAttrs stored record) !! k
  = if strings_HasPrefix k tagAttrPrefix
    then rendering <$> lastWith (hasKey k) (stored ++ Attrs record)
    else None.
Proof.
  rewrite scanAttrs_scanList, (last_writer tags isTag);
    [ | apply handleAttr_tags | reflexivity].
  induction (stored ++ Attrs record)%list as [|a l IH] using rev_ind.
  - by destruct (strings_HasPrefix k tagAttrPrefix).
  - rewrite !lastWith_snoc. unfold hasKey, isTag in *.
    case_bool_decide as Hk; cbn [andb]; [ | exact IH].
    rewrite Hk. destruct (strings_HasPrefix k tagAttrPrefix); [reflexivity | exact IH].
Qed.

(** X3. The carried error at the end of the scan is decided by the last
    attribute under "err" or "error" alone: it is the error that attribute
    holds, and [nil] when that attribute holds no error or when there is no
    such attribute. *)
Theorem scan_err_last_writer (stored : list slog_Attr) record :
  err (scanAttrs stored record)
  = match lastWith underErrKey (stored ++ Attrs record) with
    | Some a => errorOf (Value a)
    | None => None
    end.
Proof. rewrite scanAttrs_scanList. apply scanList_err. Qed.

(** X4. The two maps never share a key: every key of the context map has
    no "tag_" prefix and is none of the time, level, source and message
    keys, and every key of the tag map has the "tag_" prefix. *)
Theorem scan_keys_partitioned (stored : list slog_Attr) record :
  (∀ k, is_Some (slogContext (scanAttrs stored record) !! k) →
        strings_HasPrefix k tagAttrPrefix = false ∧ k ∉ ignoredKeys)
  ∧ (∀ k, is_Some (tags (scanAttrs stored record) !! k) →
          strings_HasPrefix k tagAttrPrefix = true)
  ∧ slogContext (scanAttrs stored record) ##ₘ tags (scanAttrs stored record).
Proof.
  assert (Hc : ∀ k, is_Some (slogContext (scanAttrs stored record) !! k) →
                    strings_HasPrefix k tagAttrPrefix = false ∧ k ∉ ignoredKeys).
  { intros k. rewrite scanAttrs_scanList,
      (last_writer slogContext isContext handleAttr_slogContext eq_refl).
    intros [r Hr]. apply fmap_Some in Hr as (a & Ha & _).
    apply lastWith_Some in Ha as [Hp _]. apply andb_true_iff in Hp as [Hk Hctx].
    apply bool_decide_eq_true in Hk. subst k. unfold isContext, isTag in Hctx.
    apply andb_true_iff in Hctx as [Hctx _]. apply andb_true_iff in Hctx as [Ht Hi].
    apply negb_true_iff in Ht, Hi. split; [exact Ht | ].
    by apply slices_Contains_not_elem_of. }
  assert (Ht : ∀ k, is_Some (tags (scanAttrs stored record) !! k) →
                    strings_HasPrefix k tagAttrPrefix = true).
  { intros k. rewrite scanAttrs_scanList,
      (last_writer tags isTag handleAttr_tags eq_refl).
    intros [r Hr]. apply fmap_Some in Hr as (a & Ha & _).
    apply lastWith_Some in Ha as [Hp _]. apply andb_true_iff in Hp as [Hk Htag].
    apply bool_decide_eq_true in Hk. by subst k. }
  split; [exact Hc | split; [exact Ht | ]].
  apply map_disjoint_alt. intros k.
  destruct (slogContext (scanAttrs stored record) !! k) eqn:Hck; [ | by left].
  destruct (tags (scanAttrs stored record) !! k) eqn:Htk; [ | by right].
  destruct (Hc k) as [Hf _]; [by rewrite Hck | ].
  rewrite Ht in Hf; [discriminate | by rewrite Htk].
Qed.

Lemma size_insert_le (m : gmap string string) (k v : string) :
  (size (<[k:=v]> m) ≤ S (size m))%nat.
Proof. rewrite map_size_insert. destruct (m !! k); simpl; lia. Qed.

(** X5. A scan stores at most one entry per attribute: the sizes of the
    context map and of the tag map add up to no more than the number of
    attributes scanned. *)
Theorem scan_size_bound (stored : list slog_Attr) record :
  (size (slogContext (scanAttrs stored record)) + size (tags (scanAttrs stored record))
   ≤ length stored + length (Attrs record))%nat.
Proof.
  rewrite scanAttrs_scanList, <- length_app.
  induction (stored ++ Attrs record)%list as [|a l IH] using rev_ind.
  { unfold scanList. simpl. rewrite !map_size_empty. lia. }
  rewrite scanList_snoc, handleAttr_slogContext, handleAttr_tags, length_app. simpl.
  destruct (isContext a) eqn:Hc.
  - rewrite (isContext_not_isTag a Hc).
    pose proof (size_insert_le (slogContext (scanList l)) (Key a) (rendering a)). lia.
  - destruct (isTag a); [ | lia].
    pose proof (size_insert_le (tags (scanList l)) (Key a) (rendering a)). lia.
Qed.

Lemma Scan_eq (st st' : Scan) :
  err st = err st' → slogContext st = slogContext st' → tags st = tags st' → st = st'.
Proof. destruct st, st'. simpl. by intros -> -> ->. Qed.

(** X6. Classifying the same attribute twice in a row is the same as
    classifying it once. *)
Theorem handleAttr_idempotent st a : handleAttr (handleAttr st a) a = handleAttr st a.
Proof.
  apply Scan_eq.
  - rewrite !handleAttr_err. by destruct (underErrKey a).
  - rewrite !handleAttr_slogContext. destruct (isContext a); [ | reflexivity].
    apply insert_insert_eq.
  - rewrite !handleAttr_tags. destruct (isTag a); [ | reflexivity].
    apply insert_insert_eq.
Qed.

(** X7. Two attributes with different keys can be classified in either
    order, unless both are under an error key. *)
Theorem handleAttr_commute st a b :
  Key a ≠ Key b → underErrKey a && underErrKey b = false →
  handleAttr (handleAttr st a) b = handleAttr (handleAttr st b) a.
Proof.
  intros Hk He. apply Scan_eq.
  - rewrite !handleAttr_err. by destruct (underErrKey a), (underErrKey b).
  - rewrite !handleAttr_slogContext. destruct (isContext a), (isContext b); try reflexivity.
    by apply insert_insert_ne.
  - rewrite !handleAttr_tags. destruct (isTag a), (isTag b); try reflexivity.
    by apply insert_insert_ne.
Qed.

Lemma handleAttr_commute_test :
  Key (Attr "error" (AnyValue (IsError recordFailure))) ≠ Key (Attr "tag_route" (StringValue "/login"))
  ∧ handleAttr (handleAttr scanStart (Attr "error" (AnyValue (IsError recordFailure))))
      (Attr "tag_route" (StringValue "/login"))
    = handleAttr (handleAttr scanStart (Attr "tag_route" (StringValue "/login")))
        (Attr "error" (AnyValue (IsError recordFailure))).
Proof.
  assert (Hk : Key (Attr "error" (AnyValue (IsError recordFailure)))
               ≠ Key (Attr "tag_route" (StringValue "/login"))) by discriminate.
  split; [exact Hk | ].
  exact (handleAttr_commute scanStart _ _ Hk eq_refl).
Defined.

(** ** What the scope callback attaches *)

Lemma size_pos_nonempty (m : gmap string string) : (0 <? size m)%nat = true ↔ m ≠ ∅.
Proof.
  rewrite Nat.ltb_lt, <- map_size_empty_iff. lia.
Qed.

Lemma elem_of_scopeCalls c st record :
  c ∈ scopeCalls st record
  ↔ (c = SetContext "slog" (slogContext st) ∧ slogContext st ≠ ∅)
    ∨ (c = SetTags (tags st) ∧ tags st ≠ ∅)
    ∨ c ∈ submissions (scopeCalls st record).
Proof.
  rewrite submissions_scopeCalls. unfold scopeCalls. rewrite !elem_of_app.
  rewrite <- (size_pos_nonempty (slogContext st)), <- (size_pos_nonempty (tags st)).
  destruct (0 <? size (slogContext st))%nat, (0 <? size (tags st))%nat;
    rewrite ?list_elem_of_singleton, ?elem_of_nil; intuition congruence.
Qed.

Lemma submissions_are_submissions c body : c ∈ submissions body → isSubmission c = true.
Proof. unfold submissions. rewrite list_elem_of_In, filter_In. by intros [_ ?]. Qed.

(** X8. Inside the scope, the context map is attached under "slog" exactly
    when it is not empty, the tag map exactly when it is not empty, nothing
    else is attached, and whatever is attached comes before the one event,
    at most, that is submitted. *)
Theorem scopeCalls_setup st record :
  (∀ key m, SetContext key m ∈ scopeCalls st record
            ↔ key = "slog" ∧ m = slogContext st ∧ m ≠ ∅)
  ∧ (∀ t, SetTags t ∈ scopeCalls st record ↔ t = tags st ∧ t ≠ ∅)
  ∧ (length (submissions (scopeCalls st record)) ≤ 1)%nat
  ∧ ∃ setup, scopeCalls st record = (setup ++ submissions (scopeCalls st record))%list
             ∧ submissions setup = [].
Proof.
  split; [ | split; [ | split]].
  - intros key m. rewrite elem_of_scopeCalls. split.
    + intros [[Heq Hne] | [[Heq _] | Hs]].
      * injection Heq as -> ->. by repeat split.
      * discriminate Heq.
      * apply submissions_are_submissions in Hs. discriminate Hs.
    + intros (-> & -> & Hne). left. by split.
  - intros t. rewrite elem_of_scopeCalls. split.
    + intros [[Heq _] | [[Heq Hne] | Hs]].
      * discriminate Heq.
      * injection Heq as ->. by split.
      * apply submissions_are_submissions in Hs. discriminate Hs.
    + intros (-> & Hne). right. left. by split.
  - rewrite submissions_scopeCalls.
    repeat match goal with
           | |- context [if ?b then _ else _] => destruct b
           end; simpl; lia.
  - rewrite submissions_scopeCalls. unfold scopeCalls.
    exists ((if (0 <? size (slogContext st))%nat
             then [SetContext "slog" (slogContext st)] else [])
            ++ (if (0 <? size (tags st))%nat then [SetTags (tags st)] else []))%list.
    split; [by rewrite <- app_assoc | ].
    unfold submissions. rewrite List.filter_app.
    by destruct (0 <? size (slogContext st))%nat, (0 <? size (tags st))%nat.
Qed.

(** X9. When every attribute scanned is under the time, level, source or
    message key, or holds an error under an error key (in particular when
    there is no attribute at all), both maps stay empty and the scope
    callback attaches nothing: it only submits. *)
Theorem scopeCalls_nothing_to_attach (stored : list slog_Attr) record :
  Forall (λ a, Key a ∈ ignoredKeys ∨ (isErrKey (Key a) ∧ errorOf (Value a) ≠ None))
    (stored ++ Attrs record) →
  slogContext (scanAttrs stored record) = ∅
  ∧ tags (scanAttrs stored record) = ∅
  ∧ scopeCalls (scanAttrs stored record) record
    = submissions (scopeCalls (scanAttrs stored record) record).
Proof.
  intros Hl.
  assert (Hmaps : slogContext (scanAttrs stored record) = ∅
                  ∧ tags (scanAttrs stored record) = ∅).
  { rewrite scanAttrs_scanList.
    induction (stored ++ Attrs record)%list as [|a l IH] using rev_ind; [by split | ].
    apply Forall_app in Hl as [Hl Ha]. inversion Ha as [|? ? Ha' _]; subst.
    rewrite scanList_snoc. destruct Ha' as [Hi | [Hk He]].
    - rewrite handleAttr_ignored by assumption. by apply IH.
    - destruct (errorOf (Value a)) as [e|] eqn:Hv; [ | contradiction].
      rewrite (handleAttr_error _ a e) by assumption. simpl. by apply IH. }
  destruct Hmaps as [Hc Ht]. split; [exact Hc | split; [exact Ht | ]].
  rewrite submissions_scopeCalls. unfold scopeCalls. rewrite Hc, Ht. reflexivity.
Qed.

Lemma scopeCalls_nothing_to_attach_test :
  Forall (λ a, Key a ∈ ignoredKeys ∨ (isErrKey (Key a) ∧ errorOf (Value a) ≠ None))
    (storedAttrs withStoredError ++ [Attr "msg" (StringValue "shadow")])
  ∧ scopeCalls
      (scanAttrs (storedAttrs withStoredError)
         (NewRecord 0 slog_LevelError "request failed" 0 [Attr "msg" (StringValue "shadow")]))
      (NewRecord 0 slog_LevelError "request failed" 0 [Attr "msg" (StringValue "shadow")])
    = [CaptureException (SlogError "request failed" (Some storedFailure))].
Proof.
  assert (Hl : Forall (λ a, Key a ∈ ignoredKeys
                            ∨ (isErrKey (Key a) ∧ errorOf (Value a) ≠ None))
                 (storedAttrs withStoredError ++ [Attr "msg" (StringValue "shadow")])).
  { unfold withStoredError. simpl. constructor; [ | constructor; [ | constructor]].
    - right. split; [by right | discriminate].
    - left. apply slices_Contains_elem_of. reflexivity. }
  split; [exact Hl | ].
  destruct (scopeCalls_nothing_to_attach (storedAttrs withStoredError)
              (NewRecord 0 slog_LevelError "request failed" 0
                 [Attr "msg" (StringValue "shadow")]) Hl) as (_ & _ & Hbody).
  rewrite Hbody. reflexivity.
Defined.

(** ** Hubs, level sets and derived handlers *)

Lemma derive_snoc {H} `{slog_Handler H} (h : H) ds d :
  derive h (ds ++ [d]) = deriveWith (derive h ds) d.
Proof. unfold derive. by rewrite fold_left_app. Qed.

Lemma resolvedHub_reported ctx hub body w :
  resolvedHub ctx (reported hub body w) = resolvedHub ctx w.
Proof. reflexivity. Qed.

Section Composition.
Context {H : Type} `{slog_Handler H}.
Implicit Types (s : SentryHandler H) (ctx : Context) (record : slog_Record) (w : World).

(** X10. [WithScope] is called on the hub the context carries when it
    carries one, whichever hub is the SDK's current one, and on the current
    hub only when the context carries none. The event itself is submitted
    inside that callback by the package-level [sentry.CaptureException] or
    [sentry.CaptureMessage]. *)
Theorem Handle_scope_on_context_hub s ctx record w current :
  currentHub w = Some current →
  Level record ∈ levels s →
  (∀ hub, ctxHub ctx = Some hub →
     SentryHandler_Handle s ctx record w
     = Handle (Handler s) ctx record
         (reported hub (scopeCalls (scanAttrs (storedAttrs s) record) record) w))
  ∧ (ctxHub ctx = None →
     SentryHandler_Handle s ctx record w
     = Handle (Handler s) ctx record
         (reported current (scopeCalls (scanAttrs (storedAttrs s) record) record) w)).
Proof.
  intros Hw Hl. split.
  - intros hub Hc. apply Handle_forwarded; [assumption | ].
    unfold resolvedHub. by rewrite Hc.
  - intros Hc. apply Handle_forwarded; [assumption | ].
    unfold resolvedHub. by rewrite Hc.
Qed.

(** X11. A handler fresh from [NewSentryHandler], and one returned by
    [WithGroup], have no stored attributes: [WithGroup] keeps the level set
    and wraps the wrapped handler's own [WithGroup], but what an earlier
    [WithAttrs] stored is no longer scanned, so that a forwarded record is
    reported from its own attributes alone, under their plain keys. *)
Theorem WithGroup_forgets_stored s name ctx record w hub :
  Level record ∈ levels s → resolvedHub ctx w = Some hub →
  SentryHandler_Handle (SentryHandler_WithGroup s name) ctx record w
  = Handle (WithGroup (Handler s) name) ctx record
      (reported hub (scopeCalls (scanList (Attrs record)) record) w)
  ∧ SentryHandler_Handle (NewSentryHandler (Handler s) (levels s)) ctx record w
    = Handle (Handler s) ctx record
        (reported hub (scopeCalls (scanList (Attrs record)) record) w).
Proof.
  intros Hl Hh. split.
  - by rewrite (Handle_forwarded (SentryHandler_WithGroup s name) ctx record w hub).
  - by rewrite (Handle_forwarded (NewSentryHandler (Handler s) (levels s)) ctx record w hub).
Qed.

(** X12. Along any chain of [WithAttrs] and [WithGroup] calls the level
    set stays the one the first handler was built with, the wrapped handler
    goes through the same chain, the stored attributes are those of the
    last call when it is a [WithAttrs] and none when it is a [WithGroup],
    and [Enabled] is answered by the wrapped handler at the end of its
    chain. *)
Theorem derive_invariants s (ds : list Derivation) :
  levels (derive s ds) = levels s
  ∧ Handler (derive s ds) = derive (Handler s) ds
  ∧ storedAttrs (derive s ds)
    = match last ds with
      | Some (ByAttrs attrs) => attrs
      | Some (ByGroup _) => []
      | None => storedAttrs s
      end
  ∧ ∀ ctx level,
      Enabled (derive s ds) ctx level = Enabled (derive (Handler s) ds) ctx level.
Proof.
  assert (Hinv : levels (derive s ds) = levels s
                 ∧ Handler (derive s ds) = derive (Handler s) ds).
  { induction ds as [|d ds [IHl IHh]] using rev_ind; [by split | ].
    rewrite !derive_snoc. destruct d; simpl; rewrite IHl, IHh; by split. }
  destruct Hinv as [Hlev Hin]. split; [exact Hlev | split; [exact Hin | split]].
  - destruct ds as [|d0 ds0] using rev_ind; [reflexivity | ].
    rewrite derive_snoc, last_snoc. by destruct d0.
  - intros ctx level. simpl. unfold SentryHandler_Enabled. by rewrite Hin.
Qed.

(** X13. Only membership in the level set matters: two handlers around the
    same wrapped handler with the same stored attributes, whose level lists
    have the same members, in whatever order and with whatever repetitions,
    handle every record alike. *)
Theorem Handle_level_set_semantics s s' ctx record w :
  Handler s = Handler s' → storedAttrs s = storedAttrs s' →
  (∀ level, level ∈ levels s ↔ level ∈ levels s') →
  SentryHandler_Handle s ctx record w = SentryHandler_Handle s' ctx record w.
Proof.
  intros Hh Ha Hl. unfold SentryHandler_Handle. rewrite Hh, Ha.
  assert (Hc : slices_Contains (levels s) (Level record)
               = slices_Contains (levels s') (Level record)).
  { destruct (slices_Contains (levels s') (Level record)) eqn:Hc'.
    - apply slices_Contains_elem_of, Hl. by apply slices_Contains_elem_of.
    - apply slices_Contains_not_elem_of. rewrite Hl. by apply slices_Contains_not_elem_of. }
  by rewrite Hc.
Qed.

(** X14. A [SentryHandler] wrapped in a [SentryHandler] reports a record
    that is in both level sets twice, the outer handler first, each from
    its own stored attributes, before the innermost handler receives it. *)
Theorem Handle_nested_reports_twice (outer : SentryHandler (SentryHandler H))
    ctx record w hub :
  Level record ∈ levels outer → Level record ∈ levels (Handler outer) →
  resolvedHub ctx w = Some hub →
  SentryHandler_Handle outer ctx record w
  = Handle (Handler (Handler outer)) ctx record
      (reported hub (scopeCalls (scanAttrs (storedAttrs (Handler outer)) record) record)
         (reported hub (scopeCalls (scanAttrs (storedAttrs outer) record) record) w)).
Proof.
  intros Ho Hi Hh.
  rewrite (Handle_forwarded outer ctx record w hub) by assumption.
  change (Handle (Handler outer)) with (SentryHandler_Handle (Handler outer)).
  by apply Handle_forwarded.
Qed.
End Composition.

Lemma Handle_scope_on_context_hub_test :
  currentHub withHub = Some 1%positive
  ∧ Level nilErrorRecord ∈ levels errorsOnly
  ∧ ctxHub requestContext = Some 2%positive
  ∧ SentryHandler_Handle errorsOnly requestContext nilErrorRecord withHub
    = (None,
       {| currentHub := Some 1%positive;
          calls :=
            [HubWithScope 2%positive
               [SetContext "slog" (<["error" := "<nil>"]> (<["some_attr" := "yes"]> ∅));
                CaptureException (SlogError "the message" None)];
             SinkHandle [] [] nilErrorRecord] |}).
Proof.
  assert (Hl : Level nilErrorRecord ∈ levels errorsOnly) by left.
  split; [reflexivity | ]. split; [exact Hl | ]. split; [reflexivity | ].
  destruct (Handle_scope_on_context_hub errorsOnly requestContext nilErrorRecord withHub
              1%positive eq_refl Hl) as [Hctx _].
  rewrite (Hctx 2%positive eq_refl). vm_compute. reflexivity.
Defined.

Lemma WithGroup_forgets_stored_test :
  Level plainErrorRecord ∈ levels withStoredError
  ∧ resolvedHub background withHub = Some 1%positive
  ∧ SentryHandler_Handle (SentryHandler_WithGroup withStoredError "http")
      background plainErrorRecord withHub
    = (None,
       {| currentHub := Some 1%positive;
          calls :=
            [HubWithScope 1%positive
               [SetContext "slog" (<["path" := "/var"]> ∅);
                CaptureException (SlogError "disk full" None)];
             SinkHandle [Attr "error" (AnyValue (IsError storedFailure))] ["http"]
               plainErrorRecord] |}).
Proof.
  assert (Hl : Level plainErrorRecord ∈ levels withStoredError) by left.
  split; [exact Hl | ]. split; [reflexivity | ].
  destruct (WithGroup_forgets_stored withStoredError "http" background plainErrorRecord
              withHub 1%positive Hl eq_refl) as [Hgroup _].
  rewrite Hgroup. vm_compute. reflexivity.
Defined.

Lemma Handle_level_set_semantics_test :
  (∀ level, level ∈ [slog_LevelError; slog_LevelWarn; slog_LevelError]
            ↔ level ∈ [slog_LevelWarn; slog_LevelError])
  ∧ SentryHandler_Handle
      (NewSentryHandler stdoutSink [slog_LevelError; slog_LevelWarn; slog_LevelError])
      background nilErrorRecord withHub
    = SentryHandler_Handle
        (NewSentryHandler stdoutSink [slog_LevelWarn; slog_LevelError])
        background nilErrorRecord withHub.
Proof.
  assert (Hl : ∀ level, level ∈ [slog_LevelError; slog_LevelWarn; slog_LevelError]
                        ↔ level ∈ [slog_LevelWarn; slog_LevelError]).
  { intros level. rewrite !elem_of_cons, elem_of_nil. tauto. }
  split; [exact Hl | ].
  exact (Handle_level_set_semantics
           (NewSentryHandler stdoutSink [slog_LevelError; slog_LevelWarn; slog_LevelError])
           (NewSentryHandler stdoutSink [slog_LevelWarn; slog_LevelError])
           background nilErrorRecord withHub eq_refl eq_refl Hl).
Defined.

Lemma Handle_nested_reports_twice_test :
  Level plainErrorRecord ∈ levels (NewSentryHandler withStoredError [slog_LevelError])
  ∧ Level plainErrorRecord ∈ levels withStoredError
  ∧ SentryHandler_Handle (NewSentryHandler withStoredError [slog_LevelError])
      background plainErrorRecord withHub
    = (None,
       {| currentHub := Some 1%positive;
          calls :=
            [HubWithScope 1%positive
               [SetContext "slog" (<["path" := "/var"]> ∅);
                CaptureException (SlogError "disk full" None)];
             HubWithScope 1%positive
               [SetContext "slog" (<["path" := "/var"]> ∅);
                CaptureException (SlogError "disk full" (Some storedFailure))];
             SinkHandle [Attr "error" (AnyValue (IsError storedFailure))] []
               plainErrorRecord] |}).
Proof.
  assert (Ho : Level plainErrorRecord
               ∈ levels (NewSentryHandler withStoredError [slog_LevelError])) by left.
  assert (Hi : Level plainErrorRecord ∈ levels withStoredError) by left.
  split; [exact Ho | ]. split; [exact Hi | ].
  rewrite (Handle_nested_reports_twice (NewSentryHandler withStoredError [slog_LevelError])
             background plainErrorRecord withHub 1%positive Ho Hi eq_refl).
  vm_compute. reflexivity.
Defined.

(** ** The revision without tags, on every input *)

Lemma tag_key_not_default a :
  isTag a = true → slices_Contains slogDefaultKeys (Key a) = false.
Proof.
  unfold isTag. intros Ht. rewrite default_key_split.
  destruct (slices_Contains ignoredKeys (Key a)) eqn:Hi.
  - apply slices_Contains_elem_of, ignoredKeys_not_tag in Hi. congruence.
  - destruct (bool_decide (Key a = shortErrKey) || bool_decide (Key a = longErrKey)) eqn:Hk;
      [ | reflexivity].
    apply isErrKey_test, isErrKey_not_tag in Hk. congruence.
Qed.

Lemma Untagged_handleAttr_err st a :
  Untagged.err (Untagged.handleAttr st a)
  = if underErrKey a then errorOf (Value a) else Untagged.err st.
Proof.
  unfold Untagged.handleAttr, underErrKey, errorOf. rewrite default_key_split.
  destruct (bool_decide (Key a = shortErrKey) || bool_decide (Key a = longErrKey)) eqn:Hk.
  - rewrite orb_true_r. cbn [negb]. destruct (assert_error _) as [e' ok]. by destruct ok.
  - by destruct (negb _).
Qed.

Lemma Untagged_handleAttr_slogContext st a :
  Untagged.slogContext (Untagged.handleAttr st a)
  = if isContext a || isTag a
    then <[Key a := rendering a]> (Untagged.slogContext st)
    else Untagged.slogContext st.
Proof.
  destruct (isTag a) eqn:Ht.
  - rewrite orb_true_r. unfold Untagged.handleAttr.
    by rewrite (tag_key_not_default a Ht).
  - rewrite orb_false_r.
    destruct (Untagged_handleAttr (Build_Scan (Untagged.err st) (Untagged.slogContext st) ∅)
                a Ht) as [Hd _].
    unfold dropTags in Hd. simpl in Hd.
    replace st with {| Untagged.err := Untagged.err st;
                       Untagged.slogContext := Untagged.slogContext st |} at 1
      by (by destruct st).
    rewrite <- Hd. simpl. by rewrite handleAttr_slogContext.
Qed.

Lemma Untagged_scanAttrs_scanList stored record :
  Untagged.scanAttrs stored record = Untagged_scanList (stored ++ Attrs record).
Proof. unfold Untagged_scanList, Untagged.scanAttrs. by rewrite fold_left_app. Qed.

Lemma Untagged_scanList_union l :
  Untagged.err (Untagged_scanList l) = err (scanList l)
  ∧ Untagged.slogContext (Untagged_scanList l)
    = slogContext (scanList l) ∪ tags (scanList l).
Proof.
  induction l as [|a l [IHe IHc]] using rev_ind.
  - split; [reflexivity | ]. unfold Untagged_scanList, scanList. simpl.
    by rewrite (left_id_L ∅ (∪)).
  - assert (Hsn : Untagged_scanList (l ++ [a])
                  = Untagged.handleAttr (Untagged_scanList l) a)
      by (unfold Untagged_scanList; by rewrite fold_left_app).
    rewrite Hsn, scanList_snoc. split.
    + by rewrite Untagged_handleAttr_err, handleAttr_err, IHe.
    + rewrite Untagged_handleAttr_slogContext, handleAttr_slogContext, handleAttr_tags, IHc.
      destruct (isContext a) eqn:Hc.
      * rewrite (isContext_not_isTag a Hc). cbn [orb]. apply insert_union_l.
      * cbn [orb]. destruct (isTag a) eqn:Ht; [ | reflexivity].
        apply insert_union_r. unfold scanList.
        rewrite scan_context_tag_key by exact Ht. apply lookup_empty.
Qed.

(** X15. On every list of attributes the revision without tags carries the
    same error as the current revision, and its context map is the current
    revision's context map together with its tag map: what is now a tag was
    a context entry under the same key. *)
Theorem Untagged_scan_merges_tags (stored : list slog_Attr) record :
  Untagged.err (Untagged.scanAttrs stored record) = err (scanAttrs stored record)
  ∧ Untagged.slogContext (Untagged.scanAttrs stored record)
    = slogContext (scanAttrs stored record) ∪ tags (scanAttrs stored record).
Proof.
  rewrite Untagged_scanAttrs_scanList, scanAttrs_scanList.
  apply Untagged_scanList_union.
Qed.

Lemma Untagged_submissions st record :
  submissions (Untagged.scopeCalls st record) =
    if bool_decide (Level record = slog_LevelError) then
      [CaptureException (SlogError (Message record) (Untagged.err st))]
    else if bool_decide (Level record = slog_LevelDebug)
            || bool_decide (Level record = slog_LevelInfo)
            || bool_decide (Level record = slog_LevelWarn) then
      [CaptureMessage (Message record)]
    else [].
Proof.
  unfold submissions, Untagged.scopeCalls. rewrite List.filter_app.
  destruct (0 <? size (Untagged.slogContext st))%nat; simpl;
    repeat match goal with
           | |- context [if ?b then _ else _] => destruct b
           end; reflexivity.
Qed.

Lemma elem_of_Untagged_scopeCalls c st record :
  c ∈ Untagged.scopeCalls st record
  ↔ (c = SetContext "slog" (Untagged.slogContext st) ∧ Untagged.slogContext st ≠ ∅)
    ∨ c ∈ submissions (Untagged.scopeCalls st record).
Proof.
  rewrite Untagged_submissions. unfold Untagged.scopeCalls. rewrite !elem_of_app.
  rewrite <- (size_pos_nonempty (Untagged.slogContext st)).
  destruct (0 <? size (Untagged.slogContext st))%nat;
    rewrite ?list_elem_of_singleton, ?elem_of_nil; intuition congruence.
Qed.

Section UntaggedHandle.
Context {H : Type} `{slog_Handler H}.
Implicit Types (s : SentryHandler H) (ctx : Context) (record : slog_Record) (w : World).

Lemma Untagged_Handle_paths s ctx record w :
  Untagged.SentryHandler_Handle s ctx record w
  = if slices_Contains (levels s) (Level record) then
      match resolvedHub ctx w with
      | Some hub =>
          Handle (Handler s) ctx record
            (reported hub
               (Untagged.scopeCalls (Untagged.scanAttrs (storedAttrs s) record) record) w)
      | None => (Some (errorString "sentry: hub is nil"), w)
      end
    else Handle (Handler s) ctx record w.
Proof.
  unfold Untagged.SentryHandler_Handle, resolvedHub, sentry_GetHubFromContext.
  destruct (slices_Contains (levels s) (Level record)); [ | reflexivity].
  unfold bind, sentry_CurrentHub, ret.
  destruct (ctxHub ctx); [reflexivity | ]. by destruct (currentHub w).
Qed.

(** X16. The revision without tags takes the same three ways through
    [Handle] as the current one: it is the current [Handle] when the level
    is not forwarded or no hub is found, and when it reports, it submits
    the same event and differs only in what it attaches: the context map
    and the tag map of the current revision in one map under "slog", and
    never a tag map. On attributes without a "tag_" key the two revisions
    are the same. *)
Theorem Untagged_Handle_reports_tags_as_context s ctx record w :
  (Level record ∉ levels s ∨ resolvedHub ctx w = None →
   Untagged.SentryHandler_Handle s ctx record w = SentryHandler_Handle s ctx record w)
  ∧ (∀ hub, Level record ∈ levels s → resolvedHub ctx w = Some hub →
       ∃ body,
         Untagged.SentryHandler_Handle s ctx record w
         = Handle (Handler s) ctx record (reported hub body w)
         ∧ submissions body
           = submissions (scopeCalls (scanAttrs (storedAttrs s) record) record)
         ∧ (∀ key m, SetContext key m ∈ body
              ↔ key = "slog"
                ∧ m = slogContext (scanAttrs (storedAttrs s) record)
                      ∪ tags (scanAttrs (storedAttrs s) record)
                ∧ m ≠ ∅)
         ∧ (∀ t, SetTags t ∉ body))
  ∧ (Forall (λ a, strings_HasPrefix (Key a) tagAttrPrefix = false)
       (storedAttrs s ++ Attrs record) →
     Untagged.SentryHandler_Handle s ctx record w = SentryHandler_Handle s ctx record w).
Proof.
  split; [ | split].
  - rewrite Untagged_Handle_paths. intros [Hl | Hh].
    + rewrite Handle_not_forwarded by assumption.
      apply slices_Contains_not_elem_of in Hl. by rewrite Hl.
    + destruct (slices_Contains (levels s) (Level record)) eqn:Hl.
      * rewrite Hh. symmetry. apply Handle_no_hub; [ | assumption].
        by apply slices_Contains_elem_of.
      * symmetry. apply Handle_not_forwarded. by apply slices_Contains_not_elem_of.
  - intros hub Hl Hh.
    destruct (Untagged_scanList_union (storedAttrs s ++ Attrs record)) as [He Hc].
    rewrite <- Untagged_scanAttrs_scanList, <- scanAttrs_scanList in He, Hc.
    exists (Untagged.scopeCalls (Untagged.scanAttrs (storedAttrs s) record) record).
    split; [ | split; [ | split]].
    + rewrite Untagged_Handle_paths, Hh.
      apply slices_Contains_elem_of in Hl. by rewrite Hl.
    + by rewrite Untagged_submissions, submissions_scopeCalls, He.
    + intros key m. rewrite elem_of_Untagged_scopeCalls, Hc. split.
      * intros [[Heq Hne] | Hs].
        -- injection Heq as -> ->. by repeat split.
        -- apply submissions_are_submissions in Hs. discriminate Hs.
      * intros (-> & -> & Hne). left. by split.
    + intros t. rewrite elem_of_Untagged_scopeCalls. intros [[Heq _] | Hs].
      * discriminate Heq.
      * apply submissions_are_submissions in Hs. discriminate Hs.
  - apply Untagged_Handle.
Qed.
End UntaggedHandle.

Lemma Untagged_Handle_reports_tags_as_context_test :
  Level failureRecord ∈ levels withStoredError
  ∧ Untagged.SentryHandler_Handle withStoredError background failureRecord withHub
    = (None,
       {| currentHub := Some 1%positive;
          calls :=
            [HubWithScope 1%positive
               [SetContext "slog" (<["tag_route" := "/login"]> ∅);
                CaptureException (SlogError "request failed" (Some recordFailure))];
             SinkHandle [Attr "error" (AnyValue (IsError storedFailure))] []
               failureRecord] |})
  ∧ SentryHandler_Handle withStoredError background failureRecord withHub
    = (None,
       {| currentHub := Some 1%positive;
          calls :=
            [HubWithScope 1%positive
               [SetTags (<["tag_route" := "/login"]> ∅);
                CaptureException (SlogError "request failed" (Some recordFailure))];
             SinkHandle [Attr "error" (AnyValue (IsError storedFailure))] []
               failureRecord] |})
  ∧ ∃ body,
      Untagged.SentryHandler_Handle withStoredError background failureRecord withHub
      = Handle (Handler withStoredError) background failureRecord
          (reported 1%positive body withHub)
      ∧ submissions body
        = submissions
            (scopeCalls (scanAttrs (storedAttrs withStoredError) failureRecord)
               failureRecord)
      ∧ (∀ key m, SetContext key m ∈ body
           ↔ key = "slog"
             ∧ m = slogContext (scanAttrs (storedAttrs withStoredError) failureRecord)
                   ∪ tags (scanAttrs (storedAttrs withStoredError) failureRecord)
             ∧ m ≠ ∅)
      ∧ (∀ t, SetTags t ∉ body).
Proof.
  assert (Hl : Level failureRecord ∈ levels withStoredError) by left.
  split; [exact Hl | ]. split; [vm_compute; reflexivity | ].
  split; [vm_compute; reflexivity | ].
  destruct (Untagged_Handle_reports_tags_as_context withStoredError background
              failureRecord withHub) as (_ & Hreport & _).
  exact (Hreport 1%positive Hl eq_refl).
Defined.

(** ** The text of the reported exception *)

Lemma Error_SlogError_Some msg e :
  Error (SlogError msg (Some e))
  = if bool_decide (msg = "") then Error e else msg ++ ": " ++ Error e.
Proof.
  destruct msg as [|c msg]; [reflexivity | ].
  rewrite bool_decide_eq_false_2 by discriminate.
  cbn [Error String.length Nat.ltb Nat.leb]. apply append_assoc.
Qed.

Section ExceptionText.
Context {H : Type} `{slog_Handler H}.
Implicit Types (s : SentryHandler H) (ctx : Context) (record : slog_Record) (w : World).

(** X17. For a forwarded Error-level record exactly one exception is
    submitted, and its text is read off the last attribute under "err" or
    "error": when that attribute holds an error, the text is the record's
    message, ": " and the error's text (the error's text alone when the
    message is empty); when it holds anything else, or when there is no
    such attribute, the text is the record's message and the attribute's
    value is not part of it. *)
Theorem Handle_exception_text s ctx record w hub :
  Level record = slog_LevelError →
  Level record ∈ levels s → resolvedHub ctx w = Some hub →
  ∃ body exception,
    SentryHandler_Handle s ctx record w
    = Handle (Handler s) ctx record (reported hub body w)
    ∧ submissions body = [CaptureException exception]
    ∧ Error exception
      = match lastWith underErrKey (storedAttrs s ++ Attrs record) with
        | Some a =>
            match errorOf (Value a) with
            | Some e =>
                if bool_decide (Message record = "") then Error e
                else Message record ++ ": " ++ Error e
            | None => Message record
            end
        | None => Message record
        end.
Proof.
  intros Hlev Hl Hh. eexists. eexists.
  split; [by apply Handle_forwarded | ]. split.
  - rewrite submissions_scopeCalls. by rewrite bool_decide_eq_true_2.
  - rewrite scanAttrs_scanList, scanList_err.
    destruct (lastWith underErrKey (storedAttrs s ++ Attrs record)) as [a|]; [ | reflexivity].
    destruct (errorOf (Value a)) as [e|]; [ | reflexivity].
    apply Error_SlogError_Some.
Qed.
End ExceptionText.

Lemma Handle_exception_text_test :
  Level resetRecord = slog_LevelError
  ∧ Level resetRecord ∈ levels withStoredError
  ∧ resolvedHub background withHub = Some 1%positive
  ∧ lastWith underErrKey (storedAttrs withStoredError ++ Attrs resetRecord)
    = Some (Attr "error" (StringValue "timeout"))
  ∧ ∃ body exception,
      SentryHandler_Handle withStoredError background resetRecord withHub
      = Handle (Handler withStoredError) background resetRecord
          (reported 1%positive body withHub)
      ∧ submissions body = [CaptureException exception]
      ∧ Error exception = "request failed".
Proof.
  assert (Hl : Level resetRecord ∈ levels withStoredError) by left.
  split; [reflexivity | ]. split; [exact Hl | ]. split; [reflexivity | ].
  split; [reflexivity | ].
  exact (Handle_exception_text withStoredError background resetRecord withHub 1%positive
           eq_refl Hl eq_refl).
Defined.
